(** * deploy/deploy-model.ipynb: the model deployment notebook

    A shallow embedding of the code cells of the notebook that promotes the
    latest trained model to a REST prediction service: select the latest
    artefact, write the [.env] file, build and push the Docker image,
    install the Helm chart and call the service once with [curl].

    Python values are modelled as they are in the notebook: [str] as
    [string] (a byte string; the order on UTF-8 bytes is the code-point
    order Python compares strings with), lists as [list], the files the
    notebook writes as a finite map from paths to contents.  Everything the
    notebook only drives (directory listing, opening and closing of files,
    Docker daemon, [!] commands) is an oracle of the environment, so every
    statement below holds for all behaviours of those tools.  The command
    that cell 6 starts with [os.popen] is recorded as a command line; the
    shell and [cp] that run it are not modelled. *)

From Stdlib Require Import ZArith.
From stdpp Require Import base option list sorting strings gmap.

Local Open Scope Z_scope.

(** ** Python exceptions *)

(** An exception is its class name and message, like Python's
    [type(e).__name__] and [str(e)]. *)
Record exn := Exn { exn_class : string; exn_msg : string }.

(** Raised by [xs[-1]] on an empty list. *)
Definition IndexError : exn := Exn "IndexError" "list index out of range".

(** ** Cell 6, first line: the selection expression *)

Module Selector.

(** [sorted(xs)] on a list of [str]: a stable merge sort under the
    lexicographic order on strings. *)
Definition sorted (xs : list string) : list string := merge_sort String.le xs.

(** [xs[-1]]. *)
Definition index_last (xs : list string) : exn + string :=
  match last xs with
  | Some x => inr x
  | None => inl IndexError
  end.

(** [sorted(os.listdir(MODEL_REPOSITORY))[-1]], given the listing. *)
Definition select_latest (entries : list string) : exn + string :=
  index_last (sorted entries).

End Selector.

(** ** Cell 4: deployment configuration parameters *)

Record config := Config {
  MODEL_REPOSITORY : string;
  SERVICE_NAME : string;
  API_VERSION : string;
  DOCKER_IMAGE_REGISTRY : string
}.

(** The values assigned in the notebook. *)
Definition notebook_config : config :=
  Config "../models" "titanic" "1" "alexioannides".

(** ** Characters that a string literal cannot hold *)

(** Line feed, the value of Python's ['\n']. *)
Definition nl : string := String (Ascii.ascii_of_nat 10) EmptyString.

(** The double quote character. *)
Definition dq : string := String (Ascii.ascii_of_nat 34) EmptyString.

(** [s] between double quotes. *)
Definition quoted (s : string) : string := dq +:+ s +:+ dq.

(** ** The strings the cells build *)

Module Text.

(** Destination of the copy, as written in cell 6. *)
Definition model_dest : string := "deploy/py-sklearn-flask-ml-service/model.joblib".

(** [f'cp {latest_model} deploy/py-sklearn-flask-ml-service/model.joblib'] *)
Definition cp_cmd (latest_model : string) : string :=
  "cp " +:+ latest_model +:+ " " +:+ model_dest.

(** [f'{latest_model} --> deploy/py-sklearn-flask-ml-service/model.joblib'] *)
Definition cp_message (latest_model : string) : string :=
  latest_model +:+ " --> " +:+ model_dest.

(** Path opened in cell 8. *)
Definition env_path : string := "py-sklearn-flask-ml-service/.env".

(** [f'SERVICE_NAME={SERVICE_NAME}\n'] *)
Definition service_name_line (cfg : config) : string :=
  "SERVICE_NAME=" +:+ SERVICE_NAME cfg +:+ nl.

(** [f'API_VERSION={API_VERSION}\n'] *)
Definition api_version_line (cfg : config) : string :=
  "API_VERSION=" +:+ API_VERSION cfg +:+ nl.

(** Cell 10. *)
Definition cat_cmd : string := "cat py-sklearn-flask-ml-service/.env".

(** Build context of cell 12. *)
Definition build_path : string := "py-sklearn-flask-ml-service".

(** [f'{DOCKER_IMAGE_REGISTRY}/{SERVICE_NAME}:latest'] *)
Definition image_tag (cfg : config) : string :=
  DOCKER_IMAGE_REGISTRY cfg +:+ "/" +:+ SERVICE_NAME cfg +:+ ":latest".

(** Cell 16 after IPython has expanded [$SERVICE_NAME] and [$image_tag] and
    joined the continuation lines (the runs of blanks between the words,
    which the shell ignores, are written as one blank). *)
Definition helm_install_cmd (cfg : config) (tag : string) : string :=
  "helm install k8s-helm-ml-prediction-app"
  +:+ " --set app.name=" +:+ quoted (SERVICE_NAME cfg +:+ "-survival-prediction")
  +:+ " --set app.namespace=" +:+ quoted (SERVICE_NAME cfg)
  +:+ " --set app.image=" +:+ quoted tag.

(** Cell 18. *)
Definition minikube_cmd : string := "minikube service list".

(** The address written in cell 20. *)
Definition curl_address : string := "192.168.99.115:31187".

(** The URL written in cell 20. *)
Definition curl_url : string := "http://" +:+ curl_address +:+ "/titanic/v1/predict".

(** The request body written in cell 20, blanks included. *)
Definition sample_payload : string :=
  "{" +:+ quoted "Pclass" +:+ ": [1], "
  +:+ quoted "Sex" +:+ ": [" +:+ quoted "male" +:+ "], "
  +:+ quoted "Age" +:+ ": [32], "
  +:+ quoted "SibSp" +:+ ": [1],                      "
  +:+ quoted "Parch" +:+ ": [0], "
  +:+ quoted "Fare" +:+ ": [100], "
  +:+ quoted "Embarked" +:+ ": [" +:+ quoted "S" +:+ "]}".

(** Cell 20 with its continuation lines joined.  The line holds no
    [$name], and IPython leaves the braces of the body as they are. *)
Definition curl_cmd : string :=
  "curl " +:+ curl_url
  +:+ " --request POST"
  +:+ " --header 'Content-Type: application/json'"
  +:+ " --data '" +:+ sample_payload +:+ "'".

End Text.

(** ** Sections of the notebook *)

(** The six headed sections that hold code, in the order of the notebook:
    "Copy Model to Flask Service Source Code Directory", "Write Service
    Configuration Parameters", "Build Docker Image", "Push Image to
    DockerHub", "Deploy to Kubernetes using Helm Charts" and "Test
    Prediction Service". *)
Inductive stage :=
  Selecting | Configuring | Building | Publishing | Deploying | Verifying.

Global Instance stage_eq_dec : EqDecision stage.
Proof. solve_decision. Defined.

Definition stage_index (s : stage) : nat :=
  match s with
  | Selecting => 0 | Configuring => 1 | Building => 2
  | Publishing => 3 | Deploying => 4 | Verifying => 5
  end%nat.

(** ** What a run does to the outside, in order *)

(** One entry per call the notebook makes.  A Python call is recorded when
    it is made, before its outcome is known; a [!] command is recorded with
    the exit code and the output it gave. *)
Inductive event :=
  | Listdir (path : string)                (* os.listdir(path) *)
  | Popen (cmd : string)                   (* os.popen(cmd) *)
  | Print (text : string)                  (* print(text) *)
  | OpenW (path : string)                  (* open(path, 'w') *)
  | System (cmd : string) (exit_code : Z) (output : string)  (* !cmd *)
  | FromEnv                                (* docker.from_env() *)
  | Build (path tag : string)              (* images.build(path=, tag=, rm=True) *)
  | Prune                                  (* images.prune() *)
  | Push (tag : string).                   (* images.push(tag) *)

Global Instance event_eq_dec : EqDecision event.
Proof. solve_decision. Defined.

(** ** Commands started with [os.popen] *)

(** [os.popen] starts a shell on the command line and returns at once; the
    command then runs beside the notebook, in the shell.  The state of a
    run keeps the command lines that were started; what the shell and the
    commands do with them is outside this development. *)
Inductive proc :=
  | Spawned (cmd : string).

Global Instance proc_eq_dec : EqDecision proc.
Proof. solve_decision. Defined.




Definition file_content (fs : gmap string string) (path : string) : string :=
  default EmptyString (fs !! path).

(** ** The environment *)

(** The tools the notebook drives, over a state [E] of their own (the
    directories, the Docker daemon, the registry, the cluster).  A Python
    call returns a value or raises; a [!] command yields an exit code and
    its output and never raises.  Writing a file can go wrong twice:
    [open(path, 'w')] can raise, and so can the close on leaving the
    [with] block, which is when the data written in the block goes out to
    the file; [os_close] then gives the exception and the number of bytes
    that reached the file. *)
Record Env (E : Type) := MkEnv {
  os_listdir : string → E → exn + list string;
  os_open : string → E → option exn;
  os_close : string → E → option (exn * nat);
  sh_system : string → gmap string string → E → E * (Z * string);
  docker_from_env : E → option exn;
  docker_build : string → string → gmap string string → E → E * (exn + list string);
  docker_prune : E → E * option exn;
  docker_push : string → E → E * (exn + string)
}.

Arguments os_listdir {E}.
Arguments os_open {E}.
Arguments os_close {E}.
Arguments sh_system {E}.
Arguments docker_from_env {E}.
Arguments docker_build {E}.
Arguments docker_prune {E}.
Arguments docker_push {E}.

(** The exception, if any, that a block [with open(path, 'w') as file: ...]
    ends with: that of [open], or else that of the close. *)
Definition os_open_w {E : Type} (env : Env E) (path : string) (st : E) : option exn :=
  match os_open env path st with
  | Some e => Some e
  | None => fst <$> os_close env path st
  end.

(** ** The state of a run *)

Record world (E : Type) := World {
  fs : gmap string string;       (* files as the calls of the notebook write them *)
  ext : E;                       (* state of the tools *)
  procs : list proc;             (* commands started with [os.popen] *)
  cur : stage;                   (* section being executed *)
  trace : list (stage * event)   (* calls made so far, oldest first *)
}.

Arguments World {E}.
Arguments fs {E}.
Arguments ext {E}.
Arguments procs {E}.
Arguments cur {E}.
Arguments trace {E}.

(** ** Cells as state transformers that may raise *)

Module Cells.
Section Cells.
Context {E : Type} (env : Env E).

Definition NB (A : Type) : Type := world E → world E * (exn + A).

Definition ret {A} (a : A) : NB A := λ w, (w, inr a).

Definition raise {A} (e : exn) : NB A := λ w, (w, inl e).

Definition bind {A B} (m : NB A) (k : A → NB B) : NB B :=
  λ w, match m w with
       | (w', inl e) => (w', inl e)
       | (w', inr a) => k a w'
       end.

Local Notation "x <- m ;; k" := (bind m (λ x, k))
  (at level 100, m at next level, right associativity).
Local Notation "m ;;; k" := (bind m (λ _, k))
  (at level 100, right associativity).

Definition lift {A} (r : exn + A) : NB A :=
  match r with inl e => raise e | inr a => ret a end.

Definition enter (s : stage) : NB unit :=
  λ w, (World (fs w) (ext w) (procs w) s (trace w), inr tt).

Definition emit (ev : event) : NB unit :=
  λ w, (World (fs w) (ext w) (procs w) (cur w) (trace w ++ [(cur w, ev)]), inr tt).

(** [os.listdir(path)] *)
Definition listdir (path : string) : NB (list string) :=
  emit (Listdir path) ;;;
  λ w, (w, os_listdir env path (ext w)).

(** [os.popen(cmd)]; the returned pipe is dropped, so the command is never
    waited for and its exit status never read. *)
Definition popen (cmd : string) : NB unit :=
  emit (Popen cmd) ;;;
  λ w, (World (fs w) (ext w) (procs w ++ [Spawned cmd]) (cur w) (trace w), inr tt).

(** [print(text)] *)
Definition print (text : string) : NB unit := emit (Print text).

(** [open(path, 'w')]: raises, or leaves the file empty. *)
Definition open_w (path : string) : NB unit :=
  emit (OpenW path) ;;;
  λ w, match os_open env path (ext w) with
       | Some e => (w, inl e)
       | None =>
           (World (<[path := EmptyString]> (fs w)) (ext w) (procs w) (cur w) (trace w),
            inr tt)
       end.

(** [file.write(s)] on the file opened at [path]. *)
Definition write (path : string) (s : string) : NB unit :=
  λ w, (World (<[path := file_content (fs w) path +:+ s]> (fs w))
              (ext w) (procs w) (cur w) (trace w), inr tt).

(** [file.writelines(lines)]: writes the items one after the other. *)
Fixpoint writelines (path : string) (lines : list string) : NB unit :=
  match lines with
  | [] => ret tt
  | l :: ls => write path l ;;; writelines path ls
  end.

(** The close of the file opened at [path]: what the block wrote goes out
    to the file.  It raises with only the first bytes in the file, or ends
    normally. *)
Definition close_w (path : string) : NB unit :=
  λ w, match os_close env path (ext w) with
       | Some (e, n) =>
           (World (<[path := String.substring 0 n (file_content (fs w) path)]> (fs w))
              (ext w) (procs w) (cur w) (trace w), inl e)
       | None => (w, inr tt)
       end.

(** The items of a [str] given where an iterable is expected: its
    characters. *)
Definition iter_str (s : string) : list string :=
  (λ c, String c EmptyString) <$> String.list_ascii_of_string s.

(** [!cmd] *)
Definition system (cmd : string) : NB unit :=
  λ w, let '(e', (code, output)) := sh_system env cmd (fs w) (ext w) in
       (World (fs w) e' (procs w) (cur w) (trace w ++ [(cur w, System cmd code output)]),
        inr tt).

(** [docker.from_env()] *)
Definition from_env : NB unit :=
  emit FromEnv ;;;
  λ w, (w, match docker_from_env env (ext w) with Some e => inl e | None => inr tt end).

(** [docker_client.images.build(path=path, tag=tag, rm=True)]; of the pair
    it returns, the notebook uses the log only. *)
Definition images_build (path tag : string) : NB (list string) :=
  emit (Build path tag) ;;;
  λ w, let '(e', r) := docker_build env path tag (fs w) (ext w) in
       (World (fs w) e' (procs w) (cur w) (trace w), r).

(** [docker_client.images.prune()] *)
Definition images_prune : NB unit :=
  emit Prune ;;;
  λ w, let '(e', r) := docker_prune env (ext w) in
       (World (fs w) e' (procs w) (cur w) (trace w),
        match r with Some e => inl e | None => inr tt end).

(** [docker_client.images.push(tag)] *)
Definition images_push (tag : string) : NB string :=
  emit (Push tag) ;;;
  λ w, let '(e', r) := docker_push env tag (ext w) in
       (World (fs w) e' (procs w) (cur w) (trace w), r).

(** [for line in lines: print(line)] *)
Fixpoint print_all (lines : list string) : NB unit :=
  match lines with
  | [] => ret tt
  | l :: ls => print l ;;; print_all ls
  end.

(** Cell 6. *)
Definition copy_model (cfg : config) : NB string :=
  enter Selecting ;;;
  entries <- listdir (MODEL_REPOSITORY cfg) ;;
  latest_model <- lift (Selector.select_latest entries) ;;
  popen (Text.cp_cmd latest_model) ;;;
  print (Text.cp_message latest_model) ;;;
  ret latest_model.

(** Cell 8; leaving the [with] block closes the file. *)
Definition write_env (cfg : config) : NB unit :=
  enter Configuring ;;;
  open_w Text.env_path ;;;
  writelines Text.env_path (iter_str (Text.service_name_line cfg)) ;;;
  writelines Text.env_path (iter_str (Text.api_version_line cfg)) ;;;
  close_w Text.env_path.

(** Cell 10. *)
Definition cat_env : NB unit := system Text.cat_cmd.

(** Cell 12. *)
Definition build_image (cfg : config) : NB string :=
  enter Building ;;;
  from_env ;;;
  build_log <- images_build Text.build_path (Text.image_tag cfg) ;;
  images_prune ;;;
  print_all build_log ;;;
  ret (Text.image_tag cfg).

(** Cell 14. *)
Definition push_image (image_tag : string) : NB unit :=
  enter Publishing ;;;
  push_log <- images_push image_tag ;;
  print push_log.

(** Cell 16. *)
Definition helm_install (cfg : config) (image_tag : string) : NB unit :=
  enter Deploying ;;;
  system (Text.helm_install_cmd cfg image_tag).

(** Cell 18. *)
Definition service_list : NB unit :=
  enter Verifying ;;;
  system Text.minikube_cmd.

(** Cell 20. *)
Definition smoke_test : NB unit := system Text.curl_cmd.

(** The code cells from cell 6 on, top to bottom; a cell that raises ends
    the run.  [after_copy] names the cells below cell 6. *)
Definition after_copy (cfg : config) : NB unit :=
  write_env cfg ;;;
  cat_env ;;;
  image_tag <- build_image cfg ;;
  push_image image_tag ;;;
  helm_install cfg image_tag ;;;
  service_list ;;;
  smoke_test.

Definition run (cfg : config) : NB unit :=
  copy_model cfg ;;;
  after_copy cfg.

(** The calls a run adds to the trace. *)
Definition events (cfg : config) (w : world E) : list (stage * event) :=
  drop (length (trace w)) (trace (run cfg w).1).

End Cells.
End Cells.

(** ** Reading a run *)

(** How a run ended: every cell was executed, or a cell of some section
    raised. *)
Inductive outcome :=
  | Completed
  | Raised (s : stage) (e : exn).

Definition outcome_of {E} (r : world E * (exn + unit)) : outcome :=
  match r with
  | (w, inl e) => Raised (cur w) e
  | (_, inr _) => Completed
  end.

(** The sections in which some call was made. *)
Definition attempted (tr : list (stage * event)) (s : stage) : Prop :=
  ∃ ev, (s, ev) ∈ tr.

(** A [!] command of section [s] ended with a non-zero exit code. *)
Definition command_failed (tr : list (stage * event)) (s : stage) : Prop :=
  ∃ cmd code output, (s, System cmd code output) ∈ tr ∧ code ≠ 0.

(** ** The calls of each section, given what the tools answered *)

Module Calls.

Definition selecting (cfg : config) (latest_model : string) : list (stage * event) :=
  [(Selecting, Listdir (MODEL_REPOSITORY cfg));
   (Selecting, Popen (Text.cp_cmd latest_model));
   (Selecting, Print (Text.cp_message latest_model))].

Definition configuring (code : Z) (output : string) : list (stage * event) :=
  [(Configuring, OpenW Text.env_path);
   (Configuring, System Text.cat_cmd code output)].

Definition building (cfg : config) (build_log : list string) : list (stage * event) :=
  [(Building, FromEnv);
   (Building, Build Text.build_path (Text.image_tag cfg));
   (Building, Prune)]
  ++ ((λ l, (Building, Print l)) <$> build_log).

Definition publishing (cfg : config) (push_log : string) : list (stage * event) :=
  [(Publishing, Push (Text.image_tag cfg));
   (Publishing, Print push_log)].

Definition deploying (cfg : config) (code : Z) (output : string) : list (stage * event) :=
  [(Deploying, System (Text.helm_install_cmd cfg (Text.image_tag cfg)) code output)].

Definition verifying (code1 : Z) (output1 : string) (code2 : Z) (output2 : string)
    : list (stage * event) :=
  [(Verifying, System Text.minikube_cmd code1 output1);
   (Verifying, System Text.curl_cmd code2 output2)].

End Calls.

(** The traces a run can leave and how it ends with each: one case per
    call that can raise, and the case in which none does. *)
Inductive run_shape (cfg : config) : list (stage * event) → outcome → Prop :=
  | shape_selecting e :
      run_shape cfg [(Selecting, Listdir (MODEL_REPOSITORY cfg))] (Raised Selecting e)
  | shape_open latest e :
      run_shape cfg
        (Calls.selecting cfg latest ++ [(Configuring, OpenW Text.env_path)])
        (Raised Configuring e)
  | shape_from_env latest c o e :
      run_shape cfg
        (Calls.selecting cfg latest ++ Calls.configuring c o
         ++ [(Building, FromEnv)])
        (Raised Building e)
  | shape_build latest c o e :
      run_shape cfg
        (Calls.selecting cfg latest ++ Calls.configuring c o
         ++ [(Building, FromEnv);
             (Building, Build Text.build_path (Text.image_tag cfg))])
        (Raised Building e)
  | shape_prune latest c o e :
      run_shape cfg
        (Calls.selecting cfg latest ++ Calls.configuring c o
         ++ [(Building, FromEnv);
             (Building, Build Text.build_path (Text.image_tag cfg));
             (Building, Prune)])
        (Raised Building e)
  | shape_push latest c o build_log e :
      run_shape cfg
        (Calls.selecting cfg latest ++ Calls.configuring c o
         ++ Calls.building cfg build_log
         ++ [(Publishing, Push (Text.image_tag cfg))])
        (Raised Publishing e)
  | shape_completed latest c o build_log push_log c1 o1 c2 o2 c3 o3 :
      run_shape cfg
        (Calls.selecting cfg latest ++ Calls.configuring c o
         ++ Calls.building cfg build_log ++ Calls.publishing cfg push_log
         ++ Calls.deploying cfg c1 o1 ++ Calls.verifying c2 o2 c3 o3)
        Completed.

(** ** The ways of copying that the specification names *)

Module Spec.







End Spec.

(** ** Version tokens *)

(** The timestamp inside an artefact name of the form
    [titanic-ml-<timestamp>.joblib]: the 19 characters after the prefix. *)
Definition timestamp (name : string) : string := String.substring 11 19 name.

(** ** Comparing request bodies *)

(** A text without its blanks; on a JSON text that has no blank inside a
    string this is the compact form of the same value. *)
Fixpoint without_blanks (s : string) : string :=
  match s with
  | EmptyString => EmptyString
  | String a rest =>
      if Ascii.is_space a then without_blanks rest
      else String a (without_blanks rest)
  end.

(** ** Environments to run the notebook in *)

Module Scripted.

(** Tools that answer by a fixed script: the directory listing, the answer
    of each [!] command and the answer of the push are given; opening the
    [.env] file, the Docker client, the build (with an empty log) and the
    prune succeed. *)
Definition env (listing : exn + list string) (answer : string → Z * string)
    (push : exn + string) : Env unit :=
  MkEnv unit
    (λ _ _, listing)
    (λ _ _, None)
    (λ _ _, None)
    (λ cmd _ e, (e, answer cmd))
    (λ _, None)
    (λ _ _ _ e, (e, inr []))
    (λ e, (e, None))
    (λ _ e, (e, push)).

(** A fresh kernel in a directory that holds the files [files]. *)
Definition world0 (files : gmap string string) : world unit :=
  World files tt [] Selecting [].

(** The one artefact of the notebook's recorded run. *)
Definition recorded_model : string := "titanic-ml-2019-02-11T17:48:28.joblib".

(** Every command succeeds silently. *)
Definition all_fine (cmd : string) : Z * string := (0, EmptyString).


(** The service answers the request with an error document. *)
Definition error_document : string :=
  "{" +:+ quoted "message" +:+ ": " +:+ quoted "Internal Server Error" +:+ "}".

Definition service_errs (cmd : string) : Z * string :=
  if decide (cmd = Text.curl_cmd) then (0, error_document) else (0, EmptyString).

(** [minikube service list] shows [url] for the service; every other
    command succeeds silently. *)
Definition service_at (url : string) (cmd : string) : Z * string :=
  if decide (cmd = Text.minikube_cmd) then (0, url) else (0, EmptyString).

(** What the Docker SDK returns from a push the registry refuses: the
    refusal is a line of the returned log. *)
Definition push_denied_log : string :=
  "{" +:+ quoted "errorDetail" +:+ ":{" +:+ quoted "message" +:+ ":"
  +:+ quoted "denied: requested access to the resource is denied" +:+ "}}".

(** What the Docker SDK raises when the daemon cannot be reached. *)
Definition api_error : exn := Exn "APIError" "500 Server Error: connection refused".

(** Tools that answer by a fixed script in which every answer is given:
    the listing, the opening of the [.env] file, the [!] commands, the
    Docker client, the build, the prune and the push; the close of the
    [.env] file succeeds. *)
Definition tools (listing : exn + list string) (opened : option exn)
    (answer : string → Z * string) (client : option exn)
    (built : exn + list string) (pruned : option exn) (push : exn + string)
    : Env unit :=
  MkEnv unit
    (λ _ _, listing)
    (λ _ _, opened)
    (λ _ _, None)
    (λ cmd _ e, (e, answer cmd))
    (λ _, client)
    (λ _ _ _ e, (e, built))
    (λ e, (e, pruned))
    (λ _ e, (e, push)).

(** What [open] raises on a directory that may not be written. *)
Definition permission_error : exn :=
  Exn "PermissionError" "[Errno 13] Permission denied".


(** What the close of a file raises when the disk is full. *)
Definition disk_full : exn := Exn "OSError" "[Errno 28] No space left on device".

(** Tools with which the [.env] file opens and its close raises [disk_full]
    when [reached] bytes have reached the file; everything else succeeds. *)
Definition failing_close (reached : nat) : Env unit :=
  MkEnv unit
    (λ _ _, inr [recorded_model])
    (λ _ _, None)
    (λ _ _, Some (disk_full, reached))
    (λ cmd _ e, (e, all_fine cmd))
    (λ _, None)
    (λ _ _ _ e, (e, inr []))
    (λ e, (e, None))
    (λ _ e, (e, inr EmptyString)).

End Scripted.

Module Cluster.

(** What the orchestrator holds for one installed chart. *)
Record deployment := Deployment {
  d_name : string;
  d_namespace : string;
  d_image : string;
  d_desired : nat;
  d_ready : nat
}.

Definition state := list deployment.

Definition same_name (name namespace : string) (d : deployment) : bool :=
  bool_decide (d_name d = name) && bool_decide (d_namespace d = namespace).

(** [helm install] of the chart as a cluster answers it: the resources are
    created, with two desired replicas none of which is ready yet; when a
    resource of that name exists in the namespace the request is rejected
    and the cluster stays as it is. *)
Definition install (name namespace image : string) (c : state) : state * (Z * string) :=
  if existsb (same_name name namespace) c
  then (c, (1, "Error: release failed: already exists"))
  else (c ++ [Deployment name namespace image 2 0], (0, "STATUS: DEPLOYED")).

(** The answer to a request sent to the service: a prediction when some
    replica is ready, a refused connection otherwise. *)
Definition request (c : state) : Z * string :=
  if existsb (λ d, bool_decide (0 < d_ready d)%nat) c
  then (0, "{" +:+ quoted "prediction" +:+ ":[1]}")
  else (7, "curl: (7) Failed to connect").

(** A cluster whose replicas never become ready by themselves, driven by
    the commands the notebook issues for [cfg]; everything else succeeds. *)
Definition env (cfg : config) : Env state :=
  MkEnv state
    (λ _ _, inr [Scripted.recorded_model])
    (λ _ _, None)
    (λ _ _, None)
    (λ cmd _ c,
       if decide (cmd = Text.helm_install_cmd cfg (Text.image_tag cfg))
       then install (SERVICE_NAME cfg +:+ "-survival-prediction") (SERVICE_NAME cfg)
              (Text.image_tag cfg) c
       else if decide (cmd = Text.curl_cmd) then (c, request c)
       else (c, (0, EmptyString)))
    (λ _, None)
    (λ _ _ _ c, (c, inr []))
    (λ c, (c, None))
    (λ _ c, (c, inr EmptyString)).

Definition world0 (c : state) : world state := World ∅ c [] Selecting [].

(** The deployments of a service name in a namespace. *)
Definition deployments_of (name namespace : string) (c : state) : list deployment :=
  filter (λ d, same_name name namespace d = true) c.

End Cluster.

(** * Properties *)

Module SelectorFacts.
Import Selector.

Lemma sorted_Permutation xs : sorted xs ≡ₚ xs.
Proof. apply merge_sort_Permutation. Qed.

Lemma sorted_StronglySorted xs : StronglySorted String.le (sorted xs).
Proof. apply (StronglySorted_merge_sort String.le). Qed.

(** The sorted list depends on the entries only, not on the order in which
    the directory listing returns them. *)
Lemma sorted_order_irrelevant xs ys : xs ≡ₚ ys → sorted xs = sorted ys.
Proof.
  intros Hp. apply (StronglySorted_unique String.le).
  - apply sorted_StronglySorted.
  - apply sorted_StronglySorted.
  - rewrite !sorted_Permutation. exact Hp.
Qed.

Lemma select_latest_empty : select_latest [] = inl IndexError.
Proof. reflexivity. Qed.

Lemma select_latest_inr xs e :
  select_latest xs = inr e ↔ last (sorted xs) = Some e.
Proof.
  unfold select_latest, index_last.
  destruct (last (sorted xs)); split; intros; simplify_eq; done.
Qed.

Lemma select_latest_elem_of xs e : select_latest xs = inr e → e ∈ xs.
Proof.
  rewrite select_latest_inr. intros H%last_Some_elem_of.
  by rewrite sorted_Permutation in H.
Qed.

Lemma select_latest_upper_bound xs e x :
  select_latest xs = inr e → x ∈ xs → (x ≤ e)%string.
Proof.
  rewrite select_latest_inr. intros [pre Hpre]%last_Some Hx.
  rewrite <- sorted_Permutation, Hpre in Hx.
  pose proof (sorted_StronglySorted xs) as Hs. rewrite Hpre in Hs.
  apply elem_of_app in Hx as [Hx | Hx].
  - eapply (StronglySorted_app_1_elem_of String.le); [exact Hs | exact Hx |].
    apply list_elem_of_singleton. reflexivity.
  - apply list_elem_of_singleton in Hx as ->. reflexivity.
Qed.

Lemma select_latest_nonempty xs : xs ≠ [] → ∃ e, select_latest xs = inr e.
Proof.
  intros Hne. destruct (last (sorted xs)) as [e|] eqn:Hl.
  - exists e. by apply select_latest_inr.
  - apply last_None in Hl. destruct Hne.
    apply Permutation_nil_r. rewrite <- Hl. symmetry. apply sorted_Permutation.
Qed.

End SelectorFacts.

(** C2, counterexample.  Of two entries the selection returns the one whose
    name is greater, here the entry stamped 2018, although the other entry
    carries the later timestamp: the version token of the selected entry is
    not the maximum. *)
Lemma greatest_name_is_not_latest_token :
  let older := "titanic-v0-2018-01-01T00:00:00.joblib" in
  let newer := "titanic-ml-2019-02-12T08:30:00.joblib" in
  Selector.select_latest [newer; older] = inr older
  ∧ timestamp older = "2018-01-01T00:00:00"
  ∧ timestamp newer = "2019-02-12T08:30:00"
  ∧ ¬ (timestamp newer ≤ timestamp older)%string.
Proof. vm_compute. repeat split; try reflexivity. intros []. Qed.

(** C2, as amended.  For a listing with at least one entry the selection
    returns the entry of the listing whose name is the greatest in the
    order of strings, and any reordering of the same listing selects the
    same entry.  That entry has the maximal version token, and is the
    greatest by name among the entries with that token, for every token
    [tok] read off the names whose order the order of the names respects on
    the listing (a timestamp after a common prefix). *)
Theorem select_latest_max {T : Type} (tle : relation T) (tok : string → T)
    (entries : list string) :
  entries ≠ [] →
  ∃ e, Selector.select_latest entries = inr e
     ∧ e ∈ entries
     ∧ (∀ x, x ∈ entries → (x ≤ e)%string)
     ∧ (∀ entries', entries' ≡ₚ entries →
          Selector.select_latest entries' = inr e)
     ∧ ((∀ a b, a ∈ entries → b ∈ entries → (a ≤ b)%string → tle (tok a) (tok b)) →
        (∀ x, x ∈ entries → tle (tok x) (tok e))
        ∧ (∀ x, x ∈ entries → tok x = tok e → (x ≤ e)%string)).
Proof.
  intros Hne.
  destruct (SelectorFacts.select_latest_nonempty entries Hne) as [e He].
  exists e. pose proof (SelectorFacts.select_latest_elem_of _ _ He) as Hin.
  pose proof (SelectorFacts.select_latest_upper_bound entries e) as Hub.
  split; [done|]. split; [done|]. split; [by auto|]. split.
  - intros entries' Hp. unfold Selector.select_latest in *.
    by rewrite (SelectorFacts.sorted_order_irrelevant _ _ Hp).
  - intros Hmono. split.
    + intros x Hx. apply Hmono; auto.
    + intros x Hx _. auto.
Qed.

Lemma select_latest_max_witness :
  let entries := ["titanic-ml-2019-02-11T17:48:28.joblib";
                  "titanic-ml-2019-02-12T08:30:00.joblib";
                  "titanic-ml-2019-01-30T23:59:59.joblib"] in
  entries ≠ []
  ∧ ∃ e, Selector.select_latest entries = inr e
       ∧ e = "titanic-ml-2019-02-12T08:30:00.joblib"
       ∧ (∀ x, x ∈ entries → (x ≤ e)%string)
       ∧ (∀ x, x ∈ entries → (timestamp x ≤ timestamp e)%string).
Proof.
  intros entries.
  assert (Hne : entries ≠ []) by discriminate.
  assert (Hmono : ∀ a b, a ∈ entries → b ∈ entries → (a ≤ b)%string →
                         (timestamp a ≤ timestamp b)%string).
  { intros a b Ha Hb. unfold entries in Ha, Hb.
    repeat (apply elem_of_cons in Ha as [-> | Ha]);
      try (by apply elem_of_nil in Ha);
      repeat (apply elem_of_cons in Hb as [-> | Hb]);
      try (by apply elem_of_nil in Hb);
      vm_compute; tauto. }
  split; [exact Hne|].
  destruct (select_latest_max String.le timestamp entries Hne)
    as (e & He & _ & Hmax & _ & Htok).
  exists e. split; [exact He|]. split; [|split; [exact Hmax|exact (proj1 (Htok Hmono))]].
  vm_compute in He. congruence.
Defined.

#[local] Set Warnings "-clear-no-such-hyp".

(** ** The cells, one equation each *)

Module CellFacts.
Section CellFacts.
Context {E : Type} (env : Env E).
Import Cells.

Lemma print_all_eq lines (w : world E) :
  print_all lines w =
  (World (fs w) (ext w) (procs w) (cur w)
     (trace w ++ ((λ l, (cur w, Print l)) <$> lines)), inr tt).
Proof.
  revert w. induction lines as [|l ls IH]; intros w; simpl.
  - unfold ret. rewrite app_nil_r. by destruct w.
  - unfold bind, print, emit. simpl. rewrite IH. simpl. by rewrite <- app_assoc.
Qed.

Lemma append_empty_r (s : string) : s +:+ EmptyString = s.
Proof.
  induction s as [|a s IH]; [done|].
  change (String a (s +:+ EmptyString) = String a s). by f_equal.
Qed.

Lemma append_assoc (s1 s2 s3 : string) : (s1 +:+ s2) +:+ s3 = s1 +:+ s2 +:+ s3.
Proof.
  induction s1 as [|a s1 IH]; [done|].
  change (String a ((s1 +:+ s2) +:+ s3) = String a (s1 +:+ s2 +:+ s3)). by f_equal.
Qed.

Lemma file_content_insert (f : gmap string string) path s :
  file_content (<[path := s]> f) path = s.
Proof. unfold file_content. by rewrite lookup_insert_eq. Qed.

(** Writing the items of a list appends their concatenation. *)
Lemma writelines_eq path lines (w : world E) s :
  fs w !! path = Some s →
  writelines path lines w =
  (World (<[path := s +:+ foldr String.append EmptyString lines]> (fs w))
     (ext w) (procs w) (cur w) (trace w), inr tt).
Proof.
  revert w s. induction lines as [|l ls IH]; intros w s Hs; simpl.
  - unfold ret. rewrite append_empty_r, insert_id by done. by destruct w.
  - unfold bind, write. simpl.
    rewrite (IH _ (s +:+ l)); simpl.
    + unfold file_content. rewrite Hs. simpl.
      by rewrite insert_insert_eq, append_assoc.
    + unfold file_content. rewrite Hs. simpl. by rewrite lookup_insert_eq.
Qed.

(** The characters of a string, written one by one, give the string. *)
Lemma concat_iter_str s : foldr String.append EmptyString (iter_str s) = s.
Proof.
  unfold iter_str. induction s as [|a s IH]; [done|].
  change (String a (foldr String.append EmptyString (iter_str s)) = String a s).
  f_equal. exact IH.
Qed.

Lemma copy_model_eq cfg (w : world E) :
  copy_model env cfg w =
  let w1 := World (fs w) (ext w) (procs w) Selecting
              (trace w ++ [(Selecting, Listdir (MODEL_REPOSITORY cfg))]) in
  match os_listdir env (MODEL_REPOSITORY cfg) (ext w) with
  | inl e => (w1, inl e)
  | inr entries =>
      match Selector.select_latest entries with
      | inl e => (w1, inl e)
      | inr latest =>
          (World (fs w) (ext w) (procs w ++ [Spawned (Text.cp_cmd latest)]) Selecting
             (trace w ++ Calls.selecting cfg latest), inr latest)
      end
  end.
Proof.
  unfold copy_model, bind, enter, listdir, bind, emit, lift, popen, print,
    bind, emit, ret, raise; simpl.
  destruct (os_listdir _ _ _) as [e|entries]; [done|].
  destruct (Selector.select_latest entries) as [e|latest]; [done|]. simpl.
  by rewrite <- !app_assoc.
Qed.

Lemma write_iter_str_eq path s (w : world E) old :
  fs w !! path = Some old →
  writelines path (iter_str s) w =
  (World (<[path := old +:+ s]> (fs w)) (ext w) (procs w) (cur w) (trace w), inr tt).
Proof. intros H. by rewrite (writelines_eq _ _ _ old), concat_iter_str. Qed.

Lemma os_open_w_None path (st : E) :
  os_open_w env path st = None
  ↔ os_open env path st = None ∧ os_close env path st = None.
Proof.
  unfold os_open_w. destruct (os_open env path st); [naive_solver|].
  destruct (os_close env path st); naive_solver.
Qed.

Lemma os_open_w_Some path (st : E) e :
  os_open_w env path st = Some e
  ↔ os_open env path st = Some e
    ∨ (os_open env path st = None ∧ ∃ n, os_close env path st = Some (e, n)).
Proof.
  unfold os_open_w. destruct (os_open env path st); [naive_solver|].
  destruct (os_close env path st) as [[e' n]|]; naive_solver.
Qed.

Lemma write_env_eq cfg (w : world E) :
  write_env env cfg w =
  let tr := trace w ++ [(Configuring, OpenW Text.env_path)] in
  let lines := Text.service_name_line cfg +:+ Text.api_version_line cfg in
  match os_open env Text.env_path (ext w) with
  | Some e => (World (fs w) (ext w) (procs w) Configuring tr, inl e)
  | None =>
      match os_close env Text.env_path (ext w) with
      | Some (e, n) =>
          (World (<[Text.env_path := String.substring 0 n lines]> (fs w))
             (ext w) (procs w) Configuring tr, inl e)
      | None =>
          (World (<[Text.env_path := lines]> (fs w))
             (ext w) (procs w) Configuring tr, inr tt)
      end
  end.
Proof.
  unfold write_env. unfold bind at 1, enter. unfold bind at 1, open_w.
  unfold bind at 1, emit. cbn [fs ext procs cur trace]. cbv zeta.
  destruct (os_open _ _ _) as [e|]; [done|].
  unfold bind at 1.
  rewrite (write_iter_str_eq _ _ _ EmptyString)
    by (cbn [fs]; by rewrite lookup_insert_eq).
  cbn [fs ext procs cur trace]. unfold bind at 1.
  rewrite (write_iter_str_eq _ _ _ (Text.service_name_line cfg))
    by (cbn [fs]; by rewrite lookup_insert_eq).
  cbn [fs ext procs cur trace]. unfold close_w. cbn [fs ext procs cur trace].
  rewrite !insert_insert_eq.
  destruct (os_close _ _ _) as [[e n]|]; [|done].
  by rewrite file_content_insert, insert_insert_eq.
Qed.

Lemma system_eq cmd (w : world E) :
  system env cmd w =
  (World (fs w) (sh_system env cmd (fs w) (ext w)).1 (procs w) (cur w)
     (trace w ++ [(cur w, System cmd (sh_system env cmd (fs w) (ext w)).2.1
                                     (sh_system env cmd (fs w) (ext w)).2.2)]),
   inr tt).
Proof. unfold system. by destruct (sh_system _ _ _ _) as [e' [code output]]. Qed.

Lemma build_image_eq cfg (w : world E) :
  build_image env cfg w =
  let tag := Text.image_tag cfg in
  let tr1 := trace w ++ [(Building, FromEnv)] in
  let tr2 := trace w ++ [(Building, FromEnv); (Building, Build Text.build_path tag)] in
  let tr3 := trace w ++ [(Building, FromEnv); (Building, Build Text.build_path tag);
                         (Building, Prune)] in
  match docker_from_env env (ext w) with
  | Some e => (World (fs w) (ext w) (procs w) Building tr1, inl e)
  | None =>
      match docker_build env Text.build_path tag (fs w) (ext w) with
      | (e1, inl e) => (World (fs w) e1 (procs w) Building tr2, inl e)
      | (e1, inr build_log) =>
          match docker_prune env e1 with
          | (e2, Some e) => (World (fs w) e2 (procs w) Building tr3, inl e)
          | (e2, None) =>
              (World (fs w) e2 (procs w) Building
                 (trace w ++ Calls.building cfg build_log), inr tag)
          end
      end
  end.
Proof.
  unfold build_image, bind, enter, from_env, bind, emit; simpl.
  destruct (docker_from_env _ _) as [e|]; [done|].
  unfold images_build, bind, emit; simpl.
  destruct (docker_build _ _ _ _ _) as [e1 [e|build_log]]; simpl;
    [by rewrite <- !app_assoc|].
  unfold images_prune, bind, emit; simpl.
  destruct (docker_prune _ _) as [e2 [e|]]; simpl; [by rewrite <- !app_assoc|].
  rewrite print_all_eq. simpl. unfold ret, Calls.building.
  by rewrite <- !app_assoc.
Qed.

Lemma push_image_eq tag (w : world E) :
  push_image env tag w =
  match docker_push env tag (ext w) with
  | (e1, inl e) =>
      (World (fs w) e1 (procs w) Publishing (trace w ++ [(Publishing, Push tag)]), inl e)
  | (e1, inr push_log) =>
      (World (fs w) e1 (procs w) Publishing
         (trace w ++ [(Publishing, Push tag); (Publishing, Print push_log)]), inr tt)
  end.
Proof.
  unfold push_image, bind, enter, images_push, bind, emit; simpl.
  destruct (docker_push _ _ _) as [e1 [e|push_log]]; simpl; [done|].
  unfold print, emit. simpl. by rewrite <- !app_assoc.
Qed.

End CellFacts.
End CellFacts.

(** ** Whole runs *)

Module RunFacts.
Section RunFacts.
Context {E : Type} (env : Env E).
Import Cells CellFacts.

Lemma app_drop {A} (l k : list A) : drop (length l) (l ++ k) = k.
Proof. by rewrite drop_app_length. Qed.

(** The cells below cell 6 as nested case analyses. *)
Lemma after_copy_eq cfg (w : world E) :
  after_copy env cfg w =
  match write_env env cfg w with
  | (w1, inl e) => (w1, inl e)
  | (w1, inr _) =>
      match system env Text.cat_cmd w1 with
      | (w2, inl e) => (w2, inl e)
      | (w2, inr _) =>
          match build_image env cfg w2 with
          | (w3, inl e) => (w3, inl e)
          | (w3, inr image_tag) =>
              match push_image env image_tag w3 with
              | (w4, inl e) => (w4, inl e)
              | (w4, inr _) =>
                  match helm_install env cfg image_tag w4 with
                  | (w5, inl e) => (w5, inl e)
                  | (w5, inr _) =>
                      match service_list env w5 with
                      | (w6, inl e) => (w6, inl e)
                      | (w6, inr _) => smoke_test env w6
                      end
                  end
              end
          end
      end
  end.
Proof. reflexivity. Qed.

(** The last three cells never raise and always make their three calls. *)
Lemma deploy_and_test_eq cfg tag (w : world E) :
  match helm_install env cfg tag w with
  | (w5, inl e) => (w5, inl e)
  | (w5, inr _) =>
      match service_list env w5 with
      | (w6, inl e) => (w6, inl e)
      | (w6, inr _) => smoke_test env w6
      end
  end =
  let a1 := sh_system env (Text.helm_install_cmd cfg tag) (fs w) (ext w) in
  let a2 := sh_system env Text.minikube_cmd (fs w) a1.1 in
  let a3 := sh_system env Text.curl_cmd (fs w) a2.1 in
  (World (fs w) a3.1 (procs w) Verifying
     (trace w ++ [(Deploying, System (Text.helm_install_cmd cfg tag) a1.2.1 a1.2.2);
                  (Verifying, System Text.minikube_cmd a2.2.1 a2.2.2);
                  (Verifying, System Text.curl_cmd a3.2.1 a3.2.2)]), inr tt).
Proof.
  unfold helm_install, service_list, smoke_test, bind, enter.
  repeat (rewrite system_eq; cbn [fs ext procs cur trace]).
  cbv zeta. by rewrite <- !app_assoc.
Qed.

(** How the cells below cell 6 end and what they add to the trace. *)
Lemma after_copy_shape cfg (w : world E) :
  let r := after_copy env cfg w in
  (∃ e, r.2 = inl e ∧ cur r.1 = Configuring
        ∧ trace r.1 = trace w ++ [(Configuring, OpenW Text.env_path)])
  ∨ (∃ c o e tl, r.2 = inl e ∧ cur r.1 = Building
        ∧ trace r.1 = trace w ++ Calls.configuring c o ++ tl
        ∧ (tl = [(Building, FromEnv)]
           ∨ tl = [(Building, FromEnv);
                   (Building, Build Text.build_path (Text.image_tag cfg))]
           ∨ tl = [(Building, FromEnv);
                   (Building, Build Text.build_path (Text.image_tag cfg));
                   (Building, Prune)]))
  ∨ (∃ c o build_log e, r.2 = inl e ∧ cur r.1 = Publishing
        ∧ trace r.1
          = trace w ++ Calls.configuring c o ++ Calls.building cfg build_log
            ++ [(Publishing, Push (Text.image_tag cfg))])
  ∨ (∃ c o build_log push_log c1 o1 c2 o2 c3 o3,
        r.2 = inr tt
        ∧ trace r.1
          = trace w ++ Calls.configuring c o ++ Calls.building cfg build_log
            ++ Calls.publishing cfg push_log ++ Calls.deploying cfg c1 o1
            ++ Calls.verifying c2 o2 c3 o3).
Proof.
  intros r. subst r. rewrite after_copy_eq, write_env_eq. cbv zeta.
  destruct (os_open _ _ _) as [e|]; [left; by exists e|].
  destruct (os_close _ _ _) as [[e n]|]; [left; by exists e|].
  right. rewrite system_eq. cbn [fs ext procs cur trace].
  set (c := (sh_system _ _ _ _).2.1). set (o := (sh_system _ _ _ _).2.2).
  set (e0 := (sh_system _ _ _ _).1).
  rewrite build_image_eq. cbv zeta. cbn [fs ext procs cur trace].
  destruct (docker_from_env _ _) as [e|].
  { left. exists c, o, e, [(Building, FromEnv)]. cbn [fst snd cur trace].
    rewrite <- !app_assoc. auto. }
  destruct (docker_build _ _ _ _ _) as [e1 [e|build_log]].
  { left. exists c, o, e. eexists. cbn [fst snd cur trace].
    rewrite <- !app_assoc. eauto 6. }
  destruct (docker_prune _ _) as [e2 [e|]].
  { left. exists c, o, e. eexists. cbn [fst snd cur trace].
    rewrite <- !app_assoc. eauto 6. }
  right. rewrite push_image_eq. cbn [fs ext procs cur trace].
  destruct (docker_push _ _ _) as [e3 [e|push_log]].
  { left. exists c, o, build_log, e. cbn [fst snd cur trace].
    by rewrite <- !app_assoc. }
  right. rewrite deploy_and_test_eq. cbv zeta. cbn [fs ext procs cur trace fst snd].
  exists c, o, build_log, push_log. do 6 eexists. split; [done|].
  unfold Calls.publishing, Calls.deploying, Calls.verifying, Calls.configuring.
  rewrite <- !app_assoc. reflexivity.
Qed.
Lemma run_unfold cfg (w : world E) :
  run env cfg w =
  match copy_model env cfg w with
  | (w1, inl e) => (w1, inl e)
  | (w1, inr _) => after_copy env cfg w1
  end.
Proof. reflexivity. Qed.

(** Every run leaves one of the traces of [run_shape]. *)
Lemma run_has_shape cfg (w : world E) :
  run_shape cfg (events env cfg w) (outcome_of (run env cfg w)).
Proof.
  unfold events. rewrite run_unfold, copy_model_eq. cbv zeta.
  destruct (os_listdir _ _ _) as [e|entries].
  { cbn [fst trace outcome_of cur]. rewrite app_drop. constructor. }
  destruct (Selector.select_latest entries) as [e|latest].
  { cbn [fst trace outcome_of cur]. rewrite app_drop. constructor. }
  set (w1 := World _ _ _ _ _).
  pose proof (after_copy_shape cfg w1) as H. cbv zeta in H.
  destruct (after_copy env cfg w1) as [w2 r]. cbn [fst snd] in H |- *.
  assert (Hw1 : trace w1 = trace w ++ Calls.selecting cfg latest) by done.
  rewrite Hw1 in H. clearbody w1.
  destruct H as
    [(e & -> & Hc & Ht) | [(c & o & e & tl & -> & Hc & Ht & Htl)
    | [(c & o & bl & e & -> & Hc & Ht)
    | (c & o & bl & pl & c1 & o1 & c2 & o2 & c3 & o3 & -> & Ht)]]];
  rewrite Ht, <- app_assoc, app_drop; cbn [outcome_of]; try rewrite Hc.
  - constructor.
  - destruct Htl as [-> | [-> | ->]]; constructor.
  - constructor.
  - constructor.
Qed.

(** An empty listing: the index expression raises and nothing else is done. *)
Lemma run_empty_listing cfg (w : world E) :
  os_listdir env (MODEL_REPOSITORY cfg) (ext w) = inr [] →
  run env cfg w =
  (World (fs w) (ext w) (procs w) Selecting
     (trace w ++ [(Selecting, Listdir (MODEL_REPOSITORY cfg))]), inl IndexError).
Proof. intros H. rewrite run_unfold, copy_model_eq, H. reflexivity. Qed.

End RunFacts.
End RunFacts.

(** ** The selection expression, once more *)

Module SelectionFacts.
Import Selector SelectorFacts.

Lemma select_latest_inl entries e :
  select_latest entries = inl e ↔ entries = [] ∧ e = IndexError.
Proof.
  split.
  - unfold select_latest, index_last.
    destruct (last (sorted entries)) as [x|] eqn:Hl; [done|].
    intros [= <-]. split; [|done].
    apply last_None in Hl. apply Permutation_nil_r.
    rewrite <- Hl. symmetry. apply sorted_Permutation.
  - intros [-> ->]. reflexivity.
Qed.

(** The selected entry is the one entry of the listing that is above all
    of them. *)
Lemma select_latest_unique entries e :
  e ∈ entries → (∀ x, x ∈ entries → (x ≤ e)%string) →
  select_latest entries = inr e.
Proof.
  intros Hin Hub.
  destruct (select_latest_nonempty entries) as [e' He'].
  { intros ->. by apply elem_of_nil in Hin. }
  rewrite He'. f_equal. apply (anti_symm String.le).
  - apply Hub. by apply (select_latest_elem_of entries).
  - by apply (select_latest_upper_bound entries).
Qed.

Lemma select_latest_cons_inr x entries e :
  select_latest entries = inr e →
  select_latest (x :: entries)
  = inr (if bool_decide (x ≤ e)%string then e else x).
Proof.
  intros He. apply select_latest_unique.
  - case_bool_decide; [|left].
    right. by apply (select_latest_elem_of entries).
  - intros y [->|Hy]%elem_of_cons.
    + case_bool_decide; [done|reflexivity].
    + pose proof (select_latest_upper_bound entries e y He Hy) as Hye.
      case_bool_decide as Hx; [done|].
      destruct (total String.le x e) as [?|Hex]; [done|]. by etrans.
Qed.

End SelectionFacts.

(** ** Runs, by what the tools answer *)

(** Case analysis of a run on the answers of the tools, one goal per way a
    run can end. *)
Local Ltac run_cases :=
  rewrite ?RunFacts.run_unfold, ?CellFacts.copy_model_eq; cbv zeta;
  destruct (os_listdir _ _ _) as [?e|?entries] eqn:?Hlist; [|
  destruct (Selector.select_latest _) as [?e|?latest] eqn:?Hsel; [|
  rewrite ?RunFacts.after_copy_eq, ?CellFacts.write_env_eq; cbv zeta;
  cbn [fs ext procs cur trace];
  destruct (os_open _ _ _) as [?e|] eqn:?Hopen; [|
  destruct (os_close _ _ _) as [[?e ?n]|] eqn:?Hclose; [|
  rewrite ?CellFacts.system_eq; cbn [fs ext procs cur trace];
  rewrite ?CellFacts.build_image_eq; cbv zeta; cbn [fs ext procs cur trace];
  destruct (docker_from_env _ _) as [?e|] eqn:?Hclient; [|
  destruct (docker_build _ _ _ _ _) as [?e1 [?e|?build_log]] eqn:?Hbuild; [|
  destruct (docker_prune _ _) as [?e2 [?e|]] eqn:?Hprune; [|
  rewrite ?CellFacts.push_image_eq; cbn [fs ext procs cur trace];
  destruct (docker_push _ _ _) as [?e3 [?e|?push_log]] eqn:?Hpush; [|
  rewrite ?RunFacts.deploy_and_test_eq; cbv zeta; cbn [fs ext procs cur trace]
  ]]]]]]]];
  cbn [fst snd fs ext procs cur trace outcome_of].

(** ** The command line of the copy *)

Module WordFacts.

Local Abbreviation blank :=
  (Ascii.Ascii false false false false false true false false).










End WordFacts.

(** * The claims *)

Local Ltac in_trace :=
  unfold attempted, command_failed, Calls.selecting, Calls.configuring,
    Calls.building, Calls.publishing, Calls.deploying, Calls.verifying in *;
  set_unfold; naive_solver (simpl; lia).



(** C3, counterexample.  On an empty repository the run ends in the
    selection section, but the exception raised there is Python's
    [IndexError], not a [NotFoundError]. *)
Lemma empty_repository_raises_IndexError :
  ∃ e, outcome_of (Cells.run (Scripted.env (inr []) Scripted.all_fine (inr EmptyString))
                     notebook_config (Scripted.world0 ∅))
       = Raised Selecting e
     ∧ exn_class e = "IndexError"
     ∧ exn_class e ≠ "NotFoundError".
Proof. exists IndexError. vm_compute. by repeat split. Qed.

(** C3, as amended.  When the listing of the repository is empty the
    selection raises [IndexError], the run ends in the selection section
    having made the listing call only: no file is written (the [.env] file
    is not opened) and no build is attempted. *)
Theorem empty_repository_halts_run {E : Type} (env : Env E) (cfg : config)
    (w : world E) :
  os_listdir env (MODEL_REPOSITORY cfg) (ext w) = inr [] →
  outcome_of (Cells.run env cfg w) = Raised Selecting IndexError
  ∧ Cells.events env cfg w = [(Selecting, Listdir (MODEL_REPOSITORY cfg))]
  ∧ fs (Cells.run env cfg w).1 = fs w
  ∧ ((Configuring, OpenW Text.env_path) ∉ Cells.events env cfg w)
  ∧ (∀ path tag, (Building, Build path tag) ∉ Cells.events env cfg w).
Proof.
  intros H. unfold Cells.events. rewrite (RunFacts.run_empty_listing env cfg w H).
  cbn [fst trace fs outcome_of cur]. rewrite RunFacts.app_drop.
  repeat split; try done; [|intros path tag]; set_solver.
Qed.

Lemma empty_repository_halts_run_witness :
  let env := Scripted.env (inr []) Scripted.all_fine (inr EmptyString) in
  let w := Scripted.world0 ∅ in
  os_listdir env (MODEL_REPOSITORY notebook_config) (ext w) = inr []
  ∧ outcome_of (Cells.run env notebook_config w) = Raised Selecting IndexError
  ∧ Cells.events env notebook_config w
    = [(Selecting, Listdir (MODEL_REPOSITORY notebook_config))].
Proof.
  split; [reflexivity|].
  pose proof (empty_repository_halts_run
                (Scripted.env (inr []) Scripted.all_fine (inr EmptyString))
                notebook_config (Scripted.world0 ∅) eq_refl) as (H1 & H2 & _).
  exact (conj H1 H2).
Defined.

(** C5.  Writing the configuration leaves in the [.env] file exactly the
    two lines made from the service name and the API version, whatever the
    file held before: nothing of a former content is kept, and two writes
    with the same inputs, in any two states, leave the same bytes. *)
Theorem write_env_overwrites {E1 E2 : Type} (env1 : Env E1) (env2 : Env E2)
    (cfg : config) (w1 : world E1) (w2 : world E2) :
  os_open_w env1 Text.env_path (ext w1) = None →
  os_open_w env2 Text.env_path (ext w2) = None →
  (Cells.write_env env1 cfg w1).2 = inr tt
  ∧ (Cells.write_env env2 cfg w2).2 = inr tt
  ∧ fs (Cells.write_env env1 cfg w1).1 !! Text.env_path
    = Some ("SERVICE_NAME=" +:+ SERVICE_NAME cfg +:+ nl
            +:+ "API_VERSION=" +:+ API_VERSION cfg +:+ nl)
  ∧ fs (Cells.write_env env2 cfg w2).1 !! Text.env_path
    = fs (Cells.write_env env1 cfg w1).1 !! Text.env_path.
Proof.
  intros [H1 H1']%CellFacts.os_open_w_None [H2 H2']%CellFacts.os_open_w_None.
  rewrite !CellFacts.write_env_eq, H1, H1', H2, H2'. cbn [fst snd fs].
  rewrite !lookup_insert_eq. unfold Text.service_name_line, Text.api_version_line.
  by rewrite !CellFacts.append_assoc.
Qed.

Lemma write_env_overwrites_witness :
  let env := Scripted.env (inr []) Scripted.all_fine (inr EmptyString) in
  let stale := "DEBUG=1" +:+ nl +:+ "SERVICE_NAME=old" +:+ nl in
  let w1 := Scripted.world0 {[Text.env_path := stale]} in
  let w2 := Scripted.world0 ∅ in
  os_open_w env Text.env_path (ext w1) = None
  ∧ os_open_w env Text.env_path (ext w2) = None
  ∧ fs (Cells.write_env env notebook_config w1).1 !! Text.env_path
    = Some ("SERVICE_NAME=titanic" +:+ nl +:+ "API_VERSION=1" +:+ nl)
  ∧ fs (Cells.write_env env notebook_config w2).1 !! Text.env_path
    = fs (Cells.write_env env notebook_config w1).1 !! Text.env_path.
Proof.
  split; [reflexivity|]. split; [reflexivity|].
  pose proof (write_env_overwrites
                (Scripted.env (inr []) Scripted.all_fine (inr EmptyString))
                (Scripted.env (inr []) Scripted.all_fine (inr EmptyString))
                notebook_config
                (Scripted.world0
                   {[Text.env_path := "DEBUG=1" +:+ nl +:+ "SERVICE_NAME=old" +:+ nl]})
                (Scripted.world0 ∅) eq_refl eq_refl) as (_ & _ & H3 & H4).
  exact (conj H3 H4).
Defined.

(** C6, counterexample.  When the registry refuses the push and the Docker
    client reports the refusal inside the log it returns, the notebook
    prints the log and goes on: the deployment is submitted and the run
    completes.  When the push call raises because the daemon cannot be
    reached, the push has been called once, and the run ends with that
    [APIError], not with a [PublishError]. *)
Lemma push_failure_is_neither_retried_nor_detected :
  let w := Scripted.world0 ∅ in
  let listing := inr [Scripted.recorded_model] in
  let denied := Scripted.env listing Scripted.all_fine (inr Scripted.push_denied_log) in
  let unreachable := Scripted.env listing Scripted.all_fine (inl Scripted.api_error) in
  (outcome_of (Cells.run denied notebook_config w) = Completed
   ∧ (Publishing, Print Scripted.push_denied_log) ∈ Cells.events denied notebook_config w
   ∧ attempted (Cells.events denied notebook_config w) Deploying)
  ∧ (outcome_of (Cells.run unreachable notebook_config w)
       = Raised Publishing Scripted.api_error
     ∧ exn_class Scripted.api_error ≠ "PublishError"
     ∧ filter (λ x, x.1 = Publishing) (Cells.events unreachable notebook_config w)
       = [(Publishing, Push (Text.image_tag notebook_config))]).
Proof.
  vm_compute. split; [split; [reflexivity|split]|split; [reflexivity|split]].
  - do 9 apply list_elem_of_further. apply list_elem_of_here.
  - eexists. do 10 apply list_elem_of_further. apply list_elem_of_here.
  - discriminate.
  - reflexivity.
Qed.

(** C6, as amended.  The publishing cell calls the push exactly once, with
    no retry: when the call raises, the cell raises the same exception
    having made that one call; otherwise it prints the returned log,
    whatever the log reports, and ends normally.  No digest is compared. *)
Theorem push_image_calls_push_once {E : Type} (env : Env E) (tag : string)
    (w : world E) :
  let r := Cells.push_image env tag w in
  let new := drop (length (trace w)) (trace r.1) in
  ext r.1 = (docker_push env tag (ext w)).1
  ∧ fs r.1 = fs w
  ∧ match (docker_push env tag (ext w)).2 with
    | inl e => r.2 = inl e ∧ new = [(Publishing, Push tag)]
    | inr push_log =>
        r.2 = inr tt ∧ new = [(Publishing, Push tag); (Publishing, Print push_log)]
    end.
Proof.
  cbv zeta. rewrite CellFacts.push_image_eq.
  destruct (docker_push env tag (ext w)) as [e1 [e|push_log]];
    cbn [fst snd ext fs trace]; rewrite RunFacts.app_drop; done.
Qed.

(** C7, counterexample.  A cluster already runs the deployment of the
    service, installed from another registry.  Running the notebook with its
    own configuration submits [helm install], which the cluster rejects: the
    deployment keeps the former image, so nothing was updated in place, and
    the run completes all the same. *)
Lemma redeploy_does_not_update_in_place :
  let former := Cluster.Deployment "titanic-survival-prediction" "titanic"
                  "registry.example/titanic:latest" 2 2 in
  let r := Cells.run (Cluster.env notebook_config) notebook_config
             (Cluster.world0 [former]) in
  Cluster.deployments_of "titanic-survival-prediction" "titanic" (ext r.1) = [former]
  ∧ Cluster.d_image former ≠ Text.image_tag notebook_config
  ∧ command_failed (trace r.1) Deploying
  ∧ outcome_of r = Completed.
Proof.
  vm_compute. split; [reflexivity|]. split; [discriminate|]. split; [|reflexivity].
  eexists _, 1, _. split; [|done].
  do 10 apply list_elem_of_further. apply list_elem_of_here.
Qed.

(** C7, as amended.  Submitting a deployment always issues the one command
    [helm install k8s-helm-ml-prediction-app --set app.name=... --set
    app.namespace=... --set app.image=...], a request to install the chart
    anew: the command is the same whatever the state of the cluster, so also
    when the service name already has a deployment; the cell issues nothing
    else, does not look at the exit code and ends normally. *)
Theorem helm_install_always_installs {E : Type} (env : Env E) (cfg : config)
    (tag : string) (w : world E) :
  let r := Cells.helm_install env cfg tag w in
  let answer := sh_system env (Text.helm_install_cmd cfg tag) (fs w) (ext w) in
  r.2 = inr tt
  ∧ drop (length (trace w)) (trace r.1)
    = [(Deploying, System (Text.helm_install_cmd cfg tag) answer.2.1 answer.2.2)]
  ∧ ext r.1 = answer.1
  ∧ Text.helm_install_cmd cfg tag
    = "helm install k8s-helm-ml-prediction-app --set app.name="
      +:+ quoted (SERVICE_NAME cfg +:+ "-survival-prediction")
      +:+ " --set app.namespace=" +:+ quoted (SERVICE_NAME cfg)
      +:+ " --set app.image=" +:+ quoted tag.
Proof.
  cbv zeta. unfold Cells.helm_install, Cells.bind, Cells.enter.
  rewrite CellFacts.system_eq. cbn [fst snd ext fs trace procs cur].
  rewrite RunFacts.app_drop. by repeat split.
Qed.

(** C8, counterexample.  On a cluster whose replicas never become ready the
    notebook installs the chart, and without waiting sends the verification
    request, which finds no one to connect to; the run completes instead of
    ending in the deployment section. *)
Lemma verification_is_sent_without_readiness :
  let r := Cells.run (Cluster.env notebook_config) notebook_config (Cluster.world0 []) in
  ext r.1 = [Cluster.Deployment "titanic-survival-prediction" "titanic"
               "alexioannides/titanic:latest" 2 0]
  ∧ (Verifying, System Text.curl_cmd 7 "curl: (7) Failed to connect") ∈ trace r.1
  ∧ outcome_of r = Completed.
Proof.
  vm_compute. split; [reflexivity|]. split; [|reflexivity].
  do 12 apply list_elem_of_further. apply list_elem_of_here.
Qed.

(** C8, as amended.  After a deployment is submitted the notebook neither
    polls for readiness nor waits: whatever the submission answered, the
    calls that follow it are one [minikube service list] and the
    verification request, nothing else, and the run completes.  The
    deployment is left in place and the Verifier is always invoked. *)
Theorem deployment_is_never_awaited {E : Type} (env : Env E) (cfg : config)
    (w : world E) (cmd : string) (code : Z) (output : string) :
  (Deploying, System cmd code output) ∈ Cells.events env cfg w →
  outcome_of (Cells.run env cfg w) = Completed
  ∧ ∃ before c2 o2 c3 o3,
      Cells.events env cfg w
      = before ++ [(Deploying, System cmd code output);
                   (Verifying, System Text.minikube_cmd c2 o2);
                   (Verifying, System Text.curl_cmd c3 o3)]
      ∧ ∀ ev, ev ∈ before → ev.1 ≠ Deploying ∧ ev.1 ≠ Verifying.
Proof.
  intros Hin. destruct (RunFacts.run_has_shape env cfg w);
    try (exfalso; in_trace).
  split; [done|].
  assert (cmd = Text.helm_install_cmd cfg (Text.image_tag cfg)
          ∧ code = c1 ∧ output = o1) as (-> & -> & ->) by in_trace.
  exists (Calls.selecting cfg latest ++ Calls.configuring c o
          ++ Calls.building cfg build_log ++ Calls.publishing cfg push_log).
  exists c2, o2, c3, o3. split.
  - unfold Calls.deploying, Calls.verifying. by rewrite <- !app_assoc.
  - clear Hin. intros ev Hev. in_trace.
Qed.

Lemma deployment_is_never_awaited_witness :
  let env := Cluster.env notebook_config in
  let w := Cluster.world0 [] in
  let cmd := Text.helm_install_cmd notebook_config (Text.image_tag notebook_config) in
  (Deploying, System cmd 0 "STATUS: DEPLOYED") ∈ Cells.events env notebook_config w
  ∧ outcome_of (Cells.run env notebook_config w) = Completed.
Proof.
  assert (H : (Deploying,
               System (Text.helm_install_cmd notebook_config (Text.image_tag notebook_config))
                 0 "STATUS: DEPLOYED")
              ∈ Cells.events (Cluster.env notebook_config) notebook_config
                  (Cluster.world0 [])).
  { vm_compute. do 10 apply list_elem_of_further. apply list_elem_of_here. }
  split; [exact H|].
  exact (proj1 (deployment_is_never_awaited (Cluster.env notebook_config)
                  notebook_config (Cluster.world0 []) _ _ _ H)).
Defined.

(** C9, counterexample.  The service answers the sample request with an
    error document that has no [prediction] key; the notebook prints it and
    the run completes: no [VerificationError] is reported. *)
Lemma answer_without_prediction_is_accepted :
  let env := Scripted.env (inr [Scripted.recorded_model]) Scripted.service_errs
               (inr EmptyString) in
  let r := Cells.run env notebook_config (Scripted.world0 ∅) in
  (Verifying, System Text.curl_cmd 0 Scripted.error_document) ∈ trace r.1
  ∧ outcome_of r = Completed.
Proof.
  vm_compute. split; [|reflexivity].
  do 12 apply list_elem_of_further. apply list_elem_of_here.
Qed.

(** C9, as amended.  The Verifier sends the fixed sample payload in one
    POST request and prints what comes back; it ends normally for every
    answer (the expected prediction, an answer without the [prediction]
    key, a failed connection or a non-success status alike) and never
    reports an error. *)
Theorem smoke_test_accepts_every_answer {E : Type} (env : Env E) (w : world E) :
  let r := Cells.smoke_test env w in
  let answer := sh_system env Text.curl_cmd (fs w) (ext w) in
  r.2 = inr tt
  ∧ drop (length (trace w)) (trace r.1)
    = [(cur w, System Text.curl_cmd answer.2.1 answer.2.2)]
  ∧ Text.curl_cmd
    = "curl http://192.168.99.115:31187/titanic/v1/predict --request POST"
      +:+ " --header 'Content-Type: application/json' --data '"
      +:+ Text.sample_payload +:+ "'"
  ∧ without_blanks Text.sample_payload
    = "{" +:+ quoted "Pclass" +:+ ":[1]," +:+ quoted "Sex" +:+ ":[" +:+ quoted "male"
      +:+ "]," +:+ quoted "Age" +:+ ":[32]," +:+ quoted "SibSp" +:+ ":[1],"
      +:+ quoted "Parch" +:+ ":[0]," +:+ quoted "Fare" +:+ ":[100],"
      +:+ quoted "Embarked" +:+ ":[" +:+ quoted "S" +:+ "]}".
Proof.
  cbv zeta. unfold Cells.smoke_test. rewrite CellFacts.system_eq.
  cbn [fst snd trace]. rewrite RunFacts.app_drop.
  split; [done|]. split; [done|]. split; vm_compute; reflexivity.
Qed.

(** C10.  The verification request goes to the address written in the
    notebook, [192.168.99.115:31187]: in every run the calls of the
    verification section are [minikube service list] and that one [curl]
    command, and two runs that complete, in whatever environments and with
    whatever configurations and service listings, end with the same request
    to the same address. *)
Theorem smoke_test_address_is_fixed {E1 E2 : Type} (env1 : Env E1) (env2 : Env E2)
    (cfg1 cfg2 : config) (w1 : world E1) (w2 : world E2) :
  outcome_of (Cells.run env1 cfg1 w1) = Completed →
  outcome_of (Cells.run env2 cfg2 w2) = Completed →
  (∃ c1 o1 c2 o2,
     last (Cells.events env1 cfg1 w1) = Some (Verifying, System Text.curl_cmd c1 o1)
     ∧ last (Cells.events env2 cfg2 w2) = Some (Verifying, System Text.curl_cmd c2 o2))
  ∧ (∀ cmd c o, (Verifying, System cmd c o) ∈ Cells.events env1 cfg1 w1 →
                cmd = Text.minikube_cmd ∨ cmd = Text.curl_cmd)
  ∧ Text.curl_cmd
    = "curl http://" +:+ "192.168.99.115:31187" +:+ "/titanic/v1/predict"
      +:+ " --request POST --header 'Content-Type: application/json' --data '"
      +:+ Text.sample_payload +:+ "'".
Proof.
  intros H1 H2. split; [|split; [|vm_compute; reflexivity]].
  - destruct (RunFacts.run_has_shape env1 cfg1 w1); try discriminate H1.
    destruct (RunFacts.run_has_shape env2 cfg2 w2); try discriminate H2.
    exists c3, o3, c6, o6. unfold Calls.verifying.
    split; rewrite !app_assoc;
      match goal with
      | |- last (?l ++ [?a; ?b]) = _ =>
          change (l ++ [a; b]) with (l ++ [a] ++ [b]);
          rewrite (app_assoc l [a] [b]); apply last_snoc
      end.

  - clear H2. intros cmd c o Hin.
    destruct (RunFacts.run_has_shape env1 cfg1 w1); try discriminate H1.
    in_trace.
Qed.

Lemma smoke_test_address_is_fixed_witness :
  let listing := inr [Scripted.recorded_model] in
  let env1 := Scripted.env listing (Scripted.service_at "http://192.168.99.115:31187")
                (inr EmptyString) in
  let env2 := Scripted.env listing (Scripted.service_at "http://10.0.2.15:30080")
                (inr EmptyString) in
  let w := Scripted.world0 ∅ in
  outcome_of (Cells.run env1 notebook_config w) = Completed
  ∧ outcome_of (Cells.run env2 notebook_config w) = Completed
  ∧ (Verifying, System Text.minikube_cmd 0 "http://10.0.2.15:30080")
    ∈ Cells.events env2 notebook_config w
  ∧ ∃ c1 o1 c2 o2,
      last (Cells.events env1 notebook_config w)
      = Some (Verifying, System Text.curl_cmd c1 o1)
      ∧ last (Cells.events env2 notebook_config w)
        = Some (Verifying, System Text.curl_cmd c2 o2).
Proof.
  intros listing env1 env2 w.
  assert (H1 : outcome_of (Cells.run env1 notebook_config w) = Completed)
    by (vm_compute; reflexivity).
  assert (H2 : outcome_of (Cells.run env2 notebook_config w) = Completed)
    by (vm_compute; reflexivity).
  split; [exact H1|]. split; [exact H2|].
  split; [vm_compute; do 11 apply list_elem_of_further; apply list_elem_of_here|].
  exact (proj1 (smoke_test_address_is_fixed env1 env2 notebook_config notebook_config
                  w w H1 H2)).
Defined.

(** ** The copy started by cell 6 *)




(** * Further properties of the cells *)

(** ** The selection expression *)


(** X1.  The selection expression raises exactly when the listing is empty,
    and what it raises then is [IndexError]. *)
Theorem select_latest_raises_iff_empty (entries : list string) (e : exn) :
  Selector.select_latest entries = inl e ↔ entries = [] ∧ e = IndexError.
Proof. apply SelectionFacts.select_latest_inl. Qed.

(** X2.  One more entry in the listing: the selection is the new entry when
    its name is above the name selected before (or when there was none),
    and is unchanged otherwise. *)
Theorem select_latest_cons (x : string) (entries : list string) :
  Selector.select_latest (x :: entries)
  = inr match Selector.select_latest entries with
        | inr e => if bool_decide (x ≤ e)%string then e else x
        | inl _ => x
        end.
Proof.
  destruct (Selector.select_latest entries) as [e|e] eqn:He.
  - apply SelectionFacts.select_latest_inl in He as [-> _]. reflexivity.
  - by apply SelectionFacts.select_latest_cons_inr.
Qed.


(** ** Runs that end early *)



(** X7.  Cell 8 when writing fails.  If [open] raises, the cell raises
    that exception and the [.env] file is as it was.  If the file opens and
    the close on leaving the block raises when [n] bytes have reached the
    file, the cell raises that exception and the file holds the first [n]
    bytes of the two lines and nothing of what it held before.  Otherwise
    the cell ends normally and the file holds the two lines. *)
Theorem write_env_when_writing_fails {E : Type} (env : Env E) (cfg : config)
    (w : world E) :
  let r := Cells.write_env env cfg w in
  let lines := Text.service_name_line cfg +:+ Text.api_version_line cfg in
  match os_open env Text.env_path (ext w), os_close env Text.env_path (ext w) with
  | Some e, _ => r.2 = inl e ∧ fs r.1 !! Text.env_path = fs w !! Text.env_path
  | None, Some (e, n) =>
      r.2 = inl e ∧ fs r.1 !! Text.env_path = Some (String.substring 0 n lines)
  | None, None => r.2 = inr tt ∧ fs r.1 !! Text.env_path = Some lines
  end.
Proof.
  cbv zeta. rewrite CellFacts.write_env_eq. cbv zeta.
  destruct (os_open _ _ _) as [e|]; [done|].
  destruct (os_close _ _ _) as [[e n]|]; cbn [fst snd fs];
    by rewrite lookup_insert_eq.
Qed.

(** X8.  When the writing of the [.env] file raises, the run ends in the
    configuration section with that exception, after the copy command of
    cell 6 was started and reported; nothing is done about that command,
    and no later call is made. *)
Theorem failed_open_keeps_started_copy {E : Type} (env : Env E) (cfg : config)
    (w : world E) (latest : string) (e : exn) :
  (Cells.copy_model env cfg w).2 = inr latest →
  os_open_w env Text.env_path (ext w) = Some e →
  outcome_of (Cells.run env cfg w) = Raised Configuring e
  ∧ procs (Cells.run env cfg w).1 = procs w ++ [Spawned (Text.cp_cmd latest)]
  ∧ Cells.events env cfg w
    = Calls.selecting cfg latest ++ [(Configuring, OpenW Text.env_path)].
Proof.
  unfold Cells.events. intros Hsel' Hopen'%CellFacts.os_open_w_Some. revert Hsel'.
  run_cases; try done; intros [= ->];
    rewrite <- ?app_assoc, RunFacts.app_drop; naive_solver.
Qed.

Lemma failed_open_keeps_started_copy_witness :
  let env := Scripted.tools (inr [Scripted.recorded_model])
               (Some Scripted.permission_error) Scripted.all_fine None (inr [])
               None (inr EmptyString) in
  let w := Scripted.world0 ∅ in
  (Cells.copy_model env notebook_config w).2 = inr Scripted.recorded_model
  ∧ os_open_w env Text.env_path (ext w) = Some Scripted.permission_error
  ∧ outcome_of (Cells.run env notebook_config w)
    = Raised Configuring Scripted.permission_error
  ∧ procs (Cells.run env notebook_config w).1
    = [Spawned (Text.cp_cmd Scripted.recorded_model)].
Proof.
  intros env w.
  assert (H1 : (Cells.copy_model env notebook_config w).2 = inr Scripted.recorded_model)
    by (vm_compute; reflexivity).
  assert (H2 : os_open_w env Text.env_path (ext w) = Some Scripted.permission_error)
    by reflexivity.
  split; [exact H1|]. split; [exact H2|].
  destruct (failed_open_keeps_started_copy env notebook_config w
              Scripted.recorded_model Scripted.permission_error H1 H2)
    as (R1 & R2 & _).
  split; [exact R1|exact R2].
Defined.

(** X9.  When the prune raises after a build that succeeded, the build
    cell raises that exception having made its three Docker calls and
    printed no line of the build log. *)
Theorem failed_prune_hides_build_log {E : Type} (env : Env E) (cfg : config)
    (w : world E) (st : E) (build_log : list string) (e : exn) :
  docker_from_env env (ext w) = None →
  docker_build env Text.build_path (Text.image_tag cfg) (fs w) (ext w)
  = (st, inr build_log) →
  (docker_prune env st).2 = Some e →
  (Cells.build_image env cfg w).2 = inl e
  ∧ drop (length (trace w)) (trace (Cells.build_image env cfg w).1)
    = [(Building, FromEnv);
       (Building, Build Text.build_path (Text.image_tag cfg));
       (Building, Prune)].
Proof.
  intros Hc Hb Hp. rewrite CellFacts.build_image_eq. cbv zeta.
  rewrite Hc, Hb. destruct (docker_prune env st) as [e2 [e'|]]; [|done].
  cbn in Hp. injection Hp as ->. cbn [fst snd trace].
  by rewrite RunFacts.app_drop.
Qed.

Lemma failed_prune_hides_build_log_witness :
  let env := Scripted.tools (inr [Scripted.recorded_model]) None Scripted.all_fine
               None (inr ["Step 1/7 : FROM python:3.7-slim"])
               (Some Scripted.api_error) (inr EmptyString) in
  let w := Scripted.world0 ∅ in
  docker_from_env env (ext w) = None
  ∧ docker_build env Text.build_path (Text.image_tag notebook_config) (fs w) (ext w)
    = (tt, inr ["Step 1/7 : FROM python:3.7-slim"])
  ∧ (docker_prune env tt).2 = Some Scripted.api_error
  ∧ (Cells.build_image env notebook_config w).2 = inl Scripted.api_error.
Proof.
  intros env w.
  assert (H1 : docker_from_env env (ext w) = None) by reflexivity.
  assert (H2 : docker_build env Text.build_path (Text.image_tag notebook_config)
                 (fs w) (ext w)
               = (tt, inr ["Step 1/7 : FROM python:3.7-slim"])) by reflexivity.
  assert (H3 : (docker_prune env tt).2 = Some Scripted.api_error) by reflexivity.
  split; [exact H1|]. split; [exact H2|]. split; [exact H3|].
  exact (proj1 (failed_prune_hides_build_log env notebook_config w tt
                  ["Step 1/7 : FROM python:3.7-slim"] Scripted.api_error H1 H2 H3)).
Defined.




(** X12.  Whatever entry was selected, one image name is used throughout a
    run: every build is of the service directory under the tag
    [<registry>/<service>:latest], every push is of that tag, and the
    deployment command names that tag as its image. *)
Theorem one_tag_is_built_pushed_and_deployed {E : Type} (env : Env E)
    (cfg : config) (w : world E) :
  (∀ s path tag, (s, Build path tag) ∈ Cells.events env cfg w →
                 path = Text.build_path ∧ tag = Text.image_tag cfg)
  ∧ (∀ s tag, (s, Push tag) ∈ Cells.events env cfg w → tag = Text.image_tag cfg)
  ∧ (∀ cmd c o, (Deploying, System cmd c o) ∈ Cells.events env cfg w →
                cmd = Text.helm_install_cmd cfg (Text.image_tag cfg)).
Proof.
  destruct (RunFacts.run_has_shape env cfg w); in_trace.
Qed.

(** ** The order of the calls *)

Module OrderFacts.

Local Abbreviation before :=
  (λ a b : stage * event, (stage_index a.1 ≤ stage_index b.1)%nat).

Lemma one_stage_sorted s (l : list (stage * event)) :
  (∀ x, x ∈ l → x.1 = s) → StronglySorted before l.
Proof.
  induction l as [|a l IH]; intros H; constructor.
  - apply IH. intros x Hx. apply H. by right.
  - apply Forall_forall. intros x Hx. cbn beta.
    rewrite (H a), (H x); [done|by right|by left].
Qed.

Lemma selecting_sorted cfg latest : StronglySorted before (Calls.selecting cfg latest).
Proof. apply (one_stage_sorted Selecting). in_trace. Qed.

Lemma configuring_sorted c o : StronglySorted before (Calls.configuring c o).
Proof. apply (one_stage_sorted Configuring). in_trace. Qed.

Lemma building_sorted cfg l : StronglySorted before (Calls.building cfg l).
Proof. apply (one_stage_sorted Building). in_trace. Qed.

Lemma publishing_sorted cfg l : StronglySorted before (Calls.publishing cfg l).
Proof. apply (one_stage_sorted Publishing). in_trace. Qed.

Lemma deploying_sorted cfg c o : StronglySorted before (Calls.deploying cfg c o).
Proof. apply (one_stage_sorted Deploying). in_trace. Qed.

Lemma verifying_sorted c o c' o' : StronglySorted before (Calls.verifying c o c' o').
Proof. apply (one_stage_sorted Verifying). in_trace. Qed.

End OrderFacts.

(** X13.  The calls of a run are made section by section in the order of
    the notebook: in the trace of every run, however it ends, no call of a
    section comes after a call of a later section. *)
Theorem stages_never_go_back {E : Type} (env : Env E) (cfg : config) (w : world E) :
  StronglySorted (λ a b, (stage_index a.1 ≤ stage_index b.1)%nat)
    (Cells.events env cfg w).
Proof.
  destruct (RunFacts.run_has_shape env cfg w);
    repeat (apply StronglySorted_app_2;
            [intros [s1 e1] [s2 e2] H1 H2; in_trace| |]);
    auto using OrderFacts.selecting_sorted, OrderFacts.configuring_sorted,
      OrderFacts.building_sorted, OrderFacts.publishing_sorted,
      OrderFacts.deploying_sorted, OrderFacts.verifying_sorted;
    try (apply (OrderFacts.one_stage_sorted Selecting); in_trace);
    try (apply (OrderFacts.one_stage_sorted Configuring); in_trace);
    try (apply (OrderFacts.one_stage_sorted Building); in_trace);
    try (apply (OrderFacts.one_stage_sorted Publishing); in_trace).
Qed.

(** ** Writing a string with [writelines] *)

(** X14.  [file.writelines] given a string writes its characters one by
    one, which on an open file is the same as one [file.write] of the
    string: the two calls of cell 8 append exactly their two lines. *)
Theorem writelines_of_str_is_write {E : Type} (path s : string) (w : world E) :
  is_Some (fs w !! path) →
  Cells.writelines path (Cells.iter_str s) w = Cells.write path s w.
Proof.
  intros [old Hold]. rewrite (CellFacts.write_iter_str_eq _ _ _ old Hold).
  unfold Cells.write, file_content. by rewrite Hold.
Qed.

Lemma writelines_of_str_is_write_witness :
  let w := Scripted.world0 {[Text.env_path := "SERVICE_NAME=titanic" +:+ nl]} in
  is_Some (fs w !! Text.env_path)
  ∧ fs (Cells.writelines Text.env_path
          (Cells.iter_str (Text.api_version_line notebook_config)) w).1
       !! Text.env_path
    = Some ("SERVICE_NAME=titanic" +:+ nl +:+ "API_VERSION=1" +:+ nl).
Proof.
  intros w.
  assert (H : is_Some (fs w !! Text.env_path)) by (eexists; vm_compute; reflexivity).
  split; [exact H|].
  rewrite (writelines_of_str_is_write Text.env_path
             (Text.api_version_line notebook_config) w H).
  vm_compute. reflexivity.
Defined.
